(** * A shallow embedding of go-darwin/hdiutil

    The package builds argument vectors for the [hdiutil] executable from
    typed option values, runs it with [os/exec] and decodes device nodes
    from its output.  Strings are Stdlib strings (lists of bytes), Go [int]
    is [Z] (64-bit on the target), Go errors are the inductive [goerror]. *)

From Stdlib Require Import ZArith String Ascii List Bool Lia.
From Stdlib Require Import DecimalString DecimalPos DecimalZ.
Import ListNotations.
Open Scope string_scope.

(** ** Go library functions used by the package *)

(** [strconv.Itoa] *)
Definition Itoa (n : Z) : string := NilEmpty.string_of_int (Z.to_int n).

(** ASCII decimal digit test, the class [\d] of Go's RE2 and the digit
    test of [strconv]. *)
Definition is_digit (c : ascii) : bool :=
  let n := nat_of_ascii c in (48 <=? n)%nat && (n <=? 57)%nat.

Definition digit_value (c : ascii) : Z := Z.of_nat (nat_of_ascii c) - 48.

(** [strings.HasPrefix] *)
Fixpoint HasPrefix (s p : string) {struct p} : bool :=
  match p with
  | EmptyString => true
  | String a p' =>
      match s with
      | String b s' => Ascii.eqb a b && HasPrefix s' p'
      | EmptyString => false
      end
  end.

(** [s[k:]], saturating at the end of the string. *)
Fixpoint sdrop (k : nat) (s : string) : string :=
  match k, s with
  | O, _ => s
  | S k', String _ s' => sdrop k' s'
  | S _, EmptyString => EmptyString
  end.

(** [s[:k]] *)
Fixpoint stake (k : nat) (s : string) : string :=
  match k, s with
  | O, _ => EmptyString
  | S k', String c s' => String c (stake k' s')
  | S _, EmptyString => EmptyString
  end.

(** [strings.TrimPrefix] *)
Definition TrimPrefix (s prefix : string) : string :=
  if HasPrefix s prefix then sdrop (String.length prefix) s else s.

(** [strings.Index]: position of the first occurrence of [sep]. *)
Fixpoint Index (s sep : string) : option nat :=
  if HasPrefix s sep then Some O
  else match s with
       | EmptyString => None
       | String _ s' => option_map S (Index s' sep)
       end.

(** [strings.Replace(s, old, new, 1)] for a non-empty [old] different from
    [new]: the first occurrence is rewritten, or [s] is returned unchanged
    when [old] does not occur. *)
Definition Replace1 (s old new : string) : string :=
  match Index s old with
  | None => s
  | Some j => stake j s ++ new ++ sdrop (j + String.length old) s
  end.

Fixpoint all_digits (s : string) : bool :=
  match s with
  | EmptyString => true
  | String c s' => is_digit c && all_digits s'
  end.

(** Value of a string of decimal digits, accumulated as [n = n*10 + d]. *)
Fixpoint dec_acc (acc : Z) (s : string) : Z :=
  match s with
  | EmptyString => acc
  | String c s' => dec_acc (acc * 10 + digit_value c) s'
  end.

Definition dec_value (s : string) : Z := dec_acc 0 s.

(** [strconv.Atoi] for a 64-bit [int].  Both its fast path (length < 19)
    and its [ParseInt(s, 10, 0)] path accept exactly an optional ['+'] or
    ['-'] followed by one or more ASCII digits whose signed value lies in
    [[-2^63, 2^63-1]]; base 10 admits no underscores.  Any other input is an
    error, written [None]. *)
Definition Atoi (s : string) : option Z :=
  let '(neg, body) :=
    match s with
    | String c r =>
        if Ascii.eqb c "-" then (true, r)
        else if Ascii.eqb c "+" then (false, r)
        else (false, s)
    | EmptyString => (false, s)
    end in
  match body with
  | EmptyString => None
  | _ =>
      if all_digits body then
        let v := dec_value body in
        let n := if neg then (- v)%Z else v in
        if (- 2 ^ 63 <=? n)%Z && (n <? 2 ^ 63)%Z then Some n else None
      else None
  end.

(** ** flag.go *)

(** The repository carries two versions of these helpers, one taking the
    value first ([boolFlag(b, name)], flag.go) and one taking the flag name
    first ([boolFlag(name, b)]); both produce the same tokens.  The value-
    first argument order of flag.go is used here, and every call site is
    translated to the tokens it means. *)

Definition boolFlag (b : bool) (name : string) : list string :=
  if b then ["-" ++ name] else [].

Definition boolNoFlag (b : bool) (name : string) : list string :=
  if b then ["-" ++ name] else ["-no" ++ name].

Definition stringFlag (s name : string) : list string := ["-" ++ name; s].

Definition stringSliceFlag (s : list string) (name : string) : list string :=
  ("-" ++ name) :: s.

Definition intFlag (s : Z) (name : string) : list string := ["-" ++ name; Itoa s].

(** ** Shared option types (hdiutil.go) *)

(** [EncryptionType] is a Go [int]; [AES128 = 1 << 0], [AES256 = 1 << 1]. *)
Definition EncryptionType := Z.
Definition AES128 : EncryptionType := 1%Z.
Definition AES256 : EncryptionType := 2%Z.

Definition EncryptionType_String (e : EncryptionType) : string :=
  if Z.eqb e AES128 then "AES-128"
  else if Z.eqb e AES256 then "AES-256"
  else "EncryptionType(" ++ Itoa e ++ ")".

(** The [-srcimagekey], [-tgtimagekey] and [-imagekey] options are Go maps
    whose encoder keeps the last pair visited by [range]; a one-entry map
    is written here as its only pair. *)
Definition imagekeyFlag (k v name : string) : list string :=
  stringFlag (k ++ "=" ++ v) name.

(** ** attach.go *)

(** [AttachSection] is a Go array [[2]int].  Its encoder ranges over the
    array with one iteration variable, which in Go binds the index, so the
    loop visits [0] and [1], never the stored sector numbers. *)
Definition AttachSection := (Z * Z)%type.

Definition AttachSection_attachFlag (a : AttachSection) : list string :=
  let arg := fold_left (fun arg v => arg ++ Itoa (Z.of_nat v)) (seq 0 2) "" in
  stringFlag arg "section".

(** The values accepted by [Attach]: every type of the package whose
    [attachFlag] method returns [[]string].  ([attachRWType.attachFlag]
    returns a [string], so read-only/read-write values do not satisfy the
    interface and cannot be passed.) *)
Inductive attachFlag :=
| AttachKernelF (b : bool)
| AttachNotRemovableF (b : bool)
| AttachMountF (s : string)
| AttachNoMountF (b : bool)
| AttachMountRoot (s : string)
| AttachMountRandom (s : string)
| AttachMountPoint (s : string)
| AttachNoBrowseF (b : bool)
| AttachOwnersF (s : string)
| AttachDrivekey (k v : string)
| AttachSectionF (a : AttachSection)
| AttachVerifyF (b : bool)
| AttachIgnoreBadChecksumsF (b : bool)
| AttachIdmeF (b : bool)
| AttachIdmeRevealF (b : bool)
| AttachIdmeTrashF (b : bool)
| AttachAutoOpenF (b : bool)
| AttachAutoOpenROF (b : bool)
| AttachAutoOpenRWF (b : bool)
| AttachAutoFsckF (b : bool)
| AttachEncryption (e : EncryptionType)
| AttachPlist (b : bool)
| AttachPuppetstrings (b : bool)
| AttachSrcimagekey (k v : string)
| AttachTgtimagekey (k v : string)
| AttachImagekey (k v : string)
| AttachStdinpass (b : bool)
| AttachRecover (s : string)
| AttachShadow (s : string)
| AttachVerbose (b : bool)
| AttachQuiet (b : bool)
| AttachDebug (b : bool).

Definition attachFlag_encode (f : attachFlag) : list string :=
  match f with
  | AttachKernelF b => boolNoFlag b "kernel"
  | AttachNotRemovableF b => boolFlag b "notremovable"
  | AttachMountF s => stringFlag s "mount"
  | AttachNoMountF b => boolFlag b "nomount"
  | AttachMountRoot s => stringFlag s "mountroot"
  | AttachMountRandom s => stringFlag s "mountrandom"
  | AttachMountPoint s => stringFlag s "mountpoint"
  | AttachNoBrowseF b => boolFlag b "nobrowse"
  | AttachOwnersF s => stringFlag s "owners"
  | AttachDrivekey k v => stringFlag (k ++ "=" ++ v) "drivekey"
  | AttachSectionF a => AttachSection_attachFlag a
  | AttachVerifyF b => boolNoFlag b "verify"
  | AttachIgnoreBadChecksumsF b => boolNoFlag b "ignoreBadChecksums"
  | AttachIdmeF b => boolNoFlag b "idme"
  | AttachIdmeRevealF b => boolNoFlag b "idmereveal"
  | AttachIdmeTrashF b => boolNoFlag b "idmetrash"
  | AttachAutoOpenF b => boolNoFlag b "autoopen"
  | AttachAutoOpenROF b => boolNoFlag b "autoopenro"
  | AttachAutoOpenRWF b => boolNoFlag b "autoopenrw"
  | AttachAutoFsckF b => boolNoFlag b "autofsck"
  | AttachEncryption e => stringFlag (EncryptionType_String e) "encryption"
  | AttachPlist b => boolFlag b "plist"
  | AttachPuppetstrings b => boolFlag b "puppetstrings"
  | AttachSrcimagekey k v => imagekeyFlag k v "srcimagekey"
  | AttachTgtimagekey k v => imagekeyFlag k v "tgtimagekey"
  | AttachImagekey k v => imagekeyFlag k v "imagekey"
  | AttachStdinpass b => boolFlag b "stdinpass"
  | AttachRecover s => stringFlag s "recover"
  | AttachShadow s => stringFlag s "shadow"
  | AttachVerbose b => boolFlag b "verbose"
  | AttachQuiet b => boolFlag b "quiet"
  | AttachDebug b => boolFlag b "debug"
  end.

Definition AttachNoVerify := AttachVerifyF false.
Definition AttachNoAutoFsck := AttachAutoFsckF false.

(** ** create.go (src/unnamed/part_001) *)

(** Size specifications, the [sizeFlag] interface. *)
Inductive sizeFlag :=
| CreateSize (s : string)
| CreateSectors (n : Z)
| CreateMegabytes (n : Z)
| CreateSrcfolder (s : string)
| CreateSrcdir (s : string)
| CreateSrcdevice (s : string).

Definition sizeFlag_encode (f : sizeFlag) : list string :=
  match f with
  | CreateSize s => stringFlag s "size"
  | CreateSectors n => intFlag n "sectors"
  | CreateMegabytes n => intFlag n "megabytes"
  | CreateSrcfolder s => stringFlag s "srcfolder"
  | CreateSrcdir s => stringFlag s "srcdir"
  | CreateSrcdevice s => stringFlag s "srcdevice"
  end.

(** [createType] is a Go [int] with constants [1 << iota]. *)
Definition CreateUDIF : Z := 1.
Definition CreateSPARSE : Z := 2.
Definition CreateSPARSEBUNDLE : Z := 4.

Definition createType_String (c : Z) : string :=
  if Z.eqb c CreateUDIF then "UDIF"
  else if Z.eqb c CreateSPARSE then "SPARSE"
  else if Z.eqb c CreateSPARSEBUNDLE then "SPARSEBUNDLE"
  else "".

(** [createFS] is a Go [int] with constants [1 << iota]. *)
Definition CreateHFSPlus : Z := 1.
Definition CreateHFSPlusJ : Z := 2.
Definition CreateJHFSPlus : Z := 4.
Definition CreateHFSX : Z := 8.
Definition CreateJHFSPlusX : Z := 16.
Definition CreateAPFS : Z := 32.
Definition CreateFAT32 : Z := 64.
Definition CreateExFAT : Z := 128.
Definition CreateUDF : Z := 256.

Definition createFS_String (c : Z) : string :=
  if Z.eqb c CreateHFSPlus then "HFS+"
  else if Z.eqb c CreateHFSPlusJ then "HFS+J"
  else if Z.eqb c CreateJHFSPlus then "JHFS+"
  else if Z.eqb c CreateHFSX then "HFSX"
  else if Z.eqb c CreateJHFSPlusX then "JHFS+X"
  else if Z.eqb c CreateAPFS then "APFS"
  else if Z.eqb c CreateFAT32 then "FAT32"
  else if Z.eqb c CreateExFAT then "ExFAT"
  else if Z.eqb c CreateUDF then "UDF"
  else "".

(** The values accepted by [Create] after the size: every type with a
    [createFlag] method. *)
Inductive createFlag :=
| CreateAlign (n : Z)
| CreateTypeF (c : Z)
| CreateFSF (c : Z)
| CreateVolname (s : string)
| CreateUID (n : Z)
| CreateGID (n : Z)
| CreateMode (s : string)
| CreateAutostretchF (b : bool)
| CreateStretch (n : Z)
| CreateFSArgs (l : list string)
| CreateLayout (s : string)
| CreateLibrary (s : string)
| CreatePartitionType (s : string)
| CreateOVF (b : bool)
| CreateAttachF (b : bool)
| CreateFormat (s : string)
| CreateSegmentSize (n : Z)
| CreateCrossdevF (b : bool)
| CreateScrubF (b : bool)
| CreateAnyownersF (b : bool)
| CreateSkipunreadableF (b : bool)
| CreateAtomicF (b : bool)
| CreateCopyuid (s : string)
| CreateSrcimagekey (k v : string)
| CreateTgtimagekey (k v : string)
| CreateImagekey (k v : string)
| CreateVerbose (b : bool)
| CreateQuiet (b : bool)
| CreateDebug (b : bool).

Definition createFlag_encode (f : createFlag) : list string :=
  match f with
  | CreateAlign n => intFlag n "align"
  | CreateTypeF c => stringFlag (createType_String c) "type"
  | CreateFSF c => stringFlag (createFS_String c) "fs"
  | CreateVolname s => stringFlag s "volname"
  | CreateUID n => intFlag n "uid"
  | CreateGID n => intFlag n "gid"
  | CreateMode s => stringFlag s "mode"
  | CreateAutostretchF b => boolNoFlag b "autostretch"
  | CreateStretch n => intFlag n "stretch"
  | CreateFSArgs l => stringSliceFlag l "fsargs"
  | CreateLayout s => stringFlag s "layout"
  | CreateLibrary s => stringFlag s "library"
  | CreatePartitionType s => stringFlag s "partitionType"
  | CreateOVF b => boolFlag b "ov"
  | CreateAttachF b => boolFlag b "attach"
  | CreateFormat s => stringFlag s "format"
  | CreateSegmentSize n => intFlag n "segmentSize"
  | CreateCrossdevF b => boolNoFlag b "crossdev"
  | CreateScrubF b => boolNoFlag b "scrub"
  | CreateAnyownersF b => boolNoFlag b "anyowners"
  | CreateSkipunreadableF b => boolFlag b "skipunreadable"
  | CreateAtomicF b => boolFlag b "atomic"
  | CreateCopyuid s => stringFlag s "copyuid"
  | CreateSrcimagekey k v => imagekeyFlag k v "srcimagekey"
  | CreateTgtimagekey k v => imagekeyFlag k v "tgtimagekey"
  | CreateImagekey k v => imagekeyFlag k v "imagekey"
  | CreateVerbose b => boolFlag b "verbose"
  | CreateQuiet b => boolFlag b "quiet"
  | CreateDebug b => boolFlag b "debug"
  end.

(** ** detach.go and verify.go *)

Inductive detachFlag :=
| DetachForceF (b : bool)
| DetachVerbose (b : bool)
| DetachQuiet (b : bool)
| DetachDebug (b : bool).

Definition detachFlag_encode (f : detachFlag) : list string :=
  match f with
  | DetachForceF b => boolFlag b "force"
  | DetachVerbose b => boolFlag b "verbose"
  | DetachQuiet b => boolFlag b "quiet"
  | DetachDebug b => boolFlag b "debug"
  end.

Inductive verifyFlag :=
| VerifyCacheF (b : bool)
| VerifyEncryption (e : EncryptionType)
| VerifyPlist (b : bool)
| VerifyPuppetstrings (b : bool)
| VerifyStdinpass (b : bool).

(** [verifyCache.verifyFlag] encodes under the flag name ["force"]. *)
Definition verifyFlag_encode (f : verifyFlag) : list string :=
  match f with
  | VerifyCacheF b => boolFlag b "force"
  | VerifyEncryption e => stringFlag (EncryptionType_String e) "encryption"
  | VerifyPlist b => boolFlag b "plist"
  | VerifyPuppetstrings b => boolFlag b "puppetstrings"
  | VerifyStdinpass b => boolFlag b "stdinpass"
  end.

Definition VerifyCache := VerifyCacheF true.
Definition VerifyNoCache := VerifyCacheF false.

(** ** Key/value options over a Go map (hdiutil.go) *)

(** [Srcimagekey.commonFlag] and its siblings: [for k, v := range m { arg =
    k + "=" + v }], over the map's entries in the order [range] visits them
    (an order Go leaves unspecified). *)
Definition commonFlag (m : list (string * string)) (name : string) : list string :=
  let arg := fold_left (fun _ kv => fst kv ++ "=" ++ snd kv) m "" in
  stringFlag arg name.

(** ** makehybrid options (detach.go) *)

(** The option types declared next to [Makehybrid]: each is a Go [bool]
    whose [makehybridFlag] method is [boolFlag(name, bool(m))]. *)
Inductive makehybridOption :=
| makehybridHFS (b : bool)
| makehybridISO (b : bool)
| makehybridJoliet (b : bool)
| makehybridUDF (b : bool)
| makehybridHFSBlessedDirectory (b : bool)
| makehybridHFSOpenfolder (b : bool)
| makehybridHFSStartupfileSize (b : bool)
| makehybridAbstractFile (b : bool)
| makehybridBibliographyFile (b : bool)
| makehybridCopyrightFile (b : bool)
| makehybridApplication (b : bool)
| makehybridPreparer (b : bool)
| makehybridPublisher (b : bool)
| makehybridSystemID (b : bool)
| makehybridKeepMacSpecific (b : bool)
| makehybridEltoritoBoot (b : bool)
| makehybridHardDiskBoot (b : bool)
| makehybridNoEmulBoot (b : bool)
| makehybridNoBoot (b : bool)
| makehybridBootLoadSeg (b : bool)
| makehybridBootLoadSize (b : bool)
| makehybridEltoritoPlatform (b : bool)
| makehybridEltoritoSpecification (b : bool)
| makehybridUDFVersion (b : bool)
| makehybridDefaultVolumeName (b : bool)
| makehybridHFSVolumeName (b : bool)
| makehybridISOVolumeName (b : bool)
| makehybridJolietVolumeName (b : bool)
| makehybridUDFVolumeName (b : bool)
| makehybridHideAll (b : bool)
| makehybridHideHFS (b : bool)
| makehybridHideISO (b : bool)
| makehybridHideJoliet (b : bool)
| makehybridHideUDF (b : bool)
| makehybridOnlyUDF (b : bool)
| makehybridOnlyISO (b : bool)
| makehybridOnlyJoliet (b : bool)
| makehybridPrintSize (b : bool)
| makehybridPlistin (b : bool).

Definition makehybridOption_encode (o : makehybridOption) : list string :=
  match o with
  | makehybridHFS b => boolFlag b "hfs"
  | makehybridISO b => boolFlag b "iso"
  | makehybridJoliet b => boolFlag b "joliet"
  | makehybridUDF b => boolFlag b "udf"
  | makehybridHFSBlessedDirectory b => boolFlag b "hfs-blessed-directory"
  | makehybridHFSOpenfolder b => boolFlag b "hfs-openfolder"
  | makehybridHFSStartupfileSize b => boolFlag b "hfs-startupfile-size"
  | makehybridAbstractFile b => boolFlag b "abstract-file"
  | makehybridBibliographyFile b => boolFlag b "bibliography-file"
  | makehybridCopyrightFile b => boolFlag b "copyright-file"
  | makehybridApplication b => boolFlag b "application"
  | makehybridPreparer b => boolFlag b "preparer"
  | makehybridPublisher b => boolFlag b "publisher"
  | makehybridSystemID b => boolFlag b "system-id"
  | makehybridKeepMacSpecific b => boolFlag b "keep-mac-specific"
  | makehybridEltoritoBoot b => boolFlag b "eltorito-boot"
  | makehybridHardDiskBoot b => boolFlag b "hard-disk-boot"
  | makehybridNoEmulBoot b => boolFlag b "no-emul-boot"
  | makehybridNoBoot b => boolFlag b "no-boot"
  | makehybridBootLoadSeg b => boolFlag b "boot-load-seg"
  | makehybridBootLoadSize b => boolFlag b "boot-load-seg"
  | makehybridEltoritoPlatform b => boolFlag b "eltorito-platform"
  | makehybridEltoritoSpecification b => boolFlag b "eltorito-specification"
  | makehybridUDFVersion b => boolFlag b "udf-version"
  | makehybridDefaultVolumeName b => boolFlag b "default-volume-name"
  | makehybridHFSVolumeName b => boolFlag b "hfs-volume-name"
  | makehybridISOVolumeName b => boolFlag b "iso-volume-name"
  | makehybridJolietVolumeName b => boolFlag b "joliet-volume-name"
  | makehybridUDFVolumeName b => boolFlag b "udf-volume-name"
  | makehybridHideAll b => boolFlag b "hide-all"
  | makehybridHideHFS b => boolFlag b "hide-hfs"
  | makehybridHideISO b => boolFlag b "hide-iso"
  | makehybridHideJoliet b => boolFlag b "hide-joliet"
  | makehybridHideUDF b => boolFlag b "hide-udf"
  | makehybridOnlyUDF b => boolFlag b "only-udf"
  | makehybridOnlyISO b => boolFlag b "only-iso"
  | makehybridOnlyJoliet b => boolFlag b "only-joliet"
  | makehybridPrintSize b => boolFlag b "print-size"
  | makehybridPlistin b => boolFlag b "plistin"
  end.

(** The values accepted by [Makehybrid]: the options above and the shared
    types of hdiutil.go with a [makehybridFlag] method. *)
Inductive makehybridFlag :=
| MakehybridOption (o : makehybridOption)
| MakehybridEncryption (e : EncryptionType)
| MakehybridPuppetstrings (b : bool)
| MakehybridSrcimagekey (m : list (string * string))
| MakehybridStdinpass (b : bool)
| MakehybridShadow (s : string)
| MakehybridVerbose (b : bool)
| MakehybridQuiet (b : bool)
| MakehybridDebug (b : bool).

Definition makehybridFlag_encode (f : makehybridFlag) : list string :=
  match f with
  | MakehybridOption o => makehybridOption_encode o
  | MakehybridEncryption e => stringFlag (EncryptionType_String e) "encryption"
  | MakehybridPuppetstrings b => boolFlag b "puppetstrings"
  | MakehybridSrcimagekey m => commonFlag m "srcimagekey"
  | MakehybridStdinpass b => boolFlag b "stdinpass"
  | MakehybridShadow s => stringFlag s "shadow"
  | MakehybridVerbose b => boolFlag b "verbose"
  | MakehybridQuiet b => boolFlag b "quiet"
  | MakehybridDebug b => boolFlag b "debug"
  end.

(** ** Argument vectors *)

(** The vector passed to the executable, after the executable's own path
    ([hdiutilPath], not part of the sources here).  Every verb appends the
    tokens of its options one by one:
    [for _, f := range flags { cmd.Args = append(cmd.Args, f.xFlag()...) }]. *)
Section AppendFlags.
Context {F : Type} (enc : F -> list string).

Definition appendFlags (args : list string) (flags : list F) : list string :=
  fold_left (fun args f => app args (enc f)) flags args.

End AppendFlags.

(** [exec.Command(hdiutilPath, "create")], then the size, then the image. *)
Definition createArgs (image : string) (sizeSpec : sizeFlag)
    (flags : list createFlag) : list string :=
  appendFlags createFlag_encode
    (app (app ["create"] (sizeFlag_encode sizeSpec)) [image]) flags.

Definition attachArgs (image : string) (flags : list attachFlag) : list string :=
  appendFlags attachFlag_encode ["attach"; image] flags.

Definition detachArgs (deviceNode : string) (flags : list detachFlag) : list string :=
  appendFlags detachFlag_encode ["detach"; deviceNode] flags.

Definition verifyArgs (img : string) (flags : list verifyFlag) : list string :=
  appendFlags verifyFlag_encode ["verify"; img] flags.

(** [Convert] and [Makehybrid] take their options through interfaces
    ([formatFlag], [convertFlag], [makehybridFlag]); they are modelled over
    any encoder. *)
Definition convertArgs {Fm F : Type} (formatFlag : Fm -> list string)
    (convertFlag : F -> list string) (image : string) (format : Fm)
    (outfile : string) (flags : list F) : list string :=
  appendFlags convertFlag
    (app (app ["convert"; image] (formatFlag format)) [outfile]) flags.

Definition makehybridArgs {F : Type} (makehybridFlag : F -> list string)
    (image source : string) (flags : list F) : list string :=
  appendFlags makehybridFlag ["makehybrid"; image; source] flags.

(** ** Running the executable *)

(** What one run of the child process yields: it could not be started, or
    it exited with a status, having written [stdout] and [stderr];
    [combined] is the interleaving [CombinedOutput] captures. *)
Inductive procResult :=
| StartFailed (msg : string)
| Exited (code : Z) (stdout stderr combined : string).

(** Go errors as they arise here: a start failure, an [*exec.ExitError]
    (whose [Error()] is ["exit status N"]), and [fmt.Errorf("%v: %s", e, s)]. *)
Inductive goerror :=
| ExecError (msg : string)
| ExitError (code : Z)
| Errorf (e : goerror) (s : string).

Fixpoint Error (e : goerror) : string :=
  match e with
  | ExecError m => m
  | ExitError c => "exit status " ++ Itoa c
  | Errorf e' s => Error e' ++ ": " ++ s
  end.

(** A Go [(T, error)] pair where exactly one side is meaningful. *)
Inductive result (A : Type) :=
| Ok (a : A)
| Err (e : goerror).
Arguments Ok {A} a.
Arguments Err {A} e.

(** [regexp.MustCompile(`/dev/disk[\d]+`).Find]: the leftmost match; at that
    position the greedy [[\d]+] takes every following digit.  No match
    gives [nil], which [string(...)] turns into [""]. *)
Definition devPrefix : string := "/dev/disk".

Fixpoint digits_prefix (s : string) : string :=
  match s with
  | String c s' => if is_digit c then String c (digits_prefix s') else EmptyString
  | EmptyString => EmptyString
  end.

Definition attachRe_matchAt (s : string) : option string :=
  if HasPrefix s devPrefix then
    match digits_prefix (sdrop (String.length devPrefix) s) with
    | EmptyString => None
    | ds => Some (devPrefix ++ ds)
    end
  else None.

Fixpoint attachRe_Find (s : string) : string :=
  match attachRe_matchAt s with
  | Some m => m
  | None =>
      match s with
      | EmptyString => EmptyString
      | String _ s' => attachRe_Find s'
      end
  end.

Section Exec.
(** The external executable, as a function of its argument vector. *)
Variable run : list string -> procResult.

(** [cmd.Run()]: output is not captured; a non-zero exit is an
    [*exec.ExitError]. *)
Definition cmdRun (args : list string) : option goerror :=
  match run args with
  | StartFailed m => Some (ExecError m)
  | Exited c _ _ _ => if Z.eqb c 0 then None else Some (ExitError c)
  end.

(** [cmd.CombinedOutput()] *)
Definition cmdCombinedOutput (args : list string) : string * option goerror :=
  match run args with
  | StartFailed m => (EmptyString, Some (ExecError m))
  | Exited c _ _ comb => (comb, if Z.eqb c 0 then None else Some (ExitError c))
  end.

Definition runResult (args : list string) : result unit :=
  match cmdRun args with
  | Some e => Err e
  | None => Ok tt
  end.

Definition Create (image : string) (sizeSpec : sizeFlag) (flags : list createFlag)
    : result unit :=
  runResult (createArgs image sizeSpec flags).

Definition Attach (image : string) (flags : list attachFlag) : result string :=
  let '(out, err) := cmdCombinedOutput (attachArgs image flags) in
  match err with
  | Some e => Err (Errorf e out)
  | None => Ok (attachRe_Find out)
  end.

Definition Detach (deviceNode : string) (flags : list detachFlag) : result unit :=
  runResult (detachArgs deviceNode flags).

Definition Verify (img : string) (flags : list verifyFlag) : result unit :=
  runResult (verifyArgs img flags).

Definition Convert {Fm F : Type} (formatFlag : Fm -> list string)
    (convertFlag : F -> list string) (image : string) (format : Fm)
    (outfile : string) (flags : list F) : result unit :=
  runResult (convertArgs formatFlag convertFlag image format outfile flags).

Definition Makehybrid {F : Type} (makehybridFlag : F -> list string)
    (image source : string) (flags : list F) : result unit :=
  runResult (makehybridArgs makehybridFlag image source flags).

End Exec.

(** ** Device nodes (hdiutil.go) *)

Definition RawDeviceNode (deviceNode : string) : string :=
  Replace1 deviceNode "disk" "rdisk".

Definition DeviceNumber (deviceNode : string) : Z :=
  match Atoi (TrimPrefix deviceNode "/dev/disk") with
  | Some n => n
  | None => 0%Z
  end.

(** ** The example program (src/unnamed/part_004) *)

Definition main_img : string := "/Users/zchee/.docker/machine/cache/boot2docker.iso".

Definition main_attach_flags : list attachFlag :=
  [AttachMountPoint "./test"; AttachNoVerify; AttachNoAutoFsck].

(** One run of [main]: the argument vectors it runs hdiutil with, the
    values it prints with [log.Println] (an [int] in decimal), and the
    message of the [log.Fatal] that ends it, if any. *)
Record mainRun := {
  commands : list (list string);
  printed : list string;
  fatal : option string
}.

Definition main (run : list string -> procResult) : mainRun :=
  match Attach run main_img main_attach_flags with
  | Err e =>
      {| commands := [attachArgs main_img main_attach_flags];
         printed := []; fatal := Some (Error e) |}
  | Ok deviceNode =>
      let out := [RawDeviceNode deviceNode; Itoa (DeviceNumber deviceNode)] in
      let cmds := [attachArgs main_img main_attach_flags; detachArgs deviceNode []] in
      match Detach run deviceNode [] with
      | Err e => {| commands := cmds; printed := out; fatal := Some (Error e) |}
      | Ok _ => {| commands := cmds; printed := out; fatal := None |}
      end
  end.

(** * Properties *)

(** ** Argument vectors *)

Lemma appendFlags_concat {F : Type} (enc : F -> list string) :
  forall flags args,
    appendFlags enc args flags = app args (concat (map enc flags)).
Proof.
  induction flags as [|f flags IH]; intros args; simpl.
  - now rewrite app_nil_r.
  - unfold appendFlags in *; simpl. rewrite IH. now rewrite app_assoc.
Qed.

(** C1 (as the code does it): [Create("test", CreateMegabytes(20),
    CreateHFSPlus, CreateSPARSEBUNDLE)] puts the image name after the size
    tokens and before the option tokens. *)
Theorem Create_scenario_args :
  createArgs "test" (CreateMegabytes 20)
    [CreateFSF CreateHFSPlus; CreateTypeF CreateSPARSEBUNDLE]
  = ["create"; "-megabytes"; "20"; "test"; "-fs"; "HFS+"; "-type"; "SPARSEBUNDLE"].
Proof. reflexivity. Qed.

(** C1 (the claim refuted): the vector of that call is not the one the
    claim gives, with ["test"] last. *)
Lemma Create_scenario_not_image_last :
  createArgs "test" (CreateMegabytes 20)
    [CreateFSF CreateHFSPlus; CreateTypeF CreateSPARSEBUNDLE]
  <> ["create"; "-megabytes"; "20"; "-fs"; "HFS+"; "-type"; "SPARSEBUNDLE"; "test"].
Proof. vm_compute. discriminate. Qed.

(** C2 (as the code does it): Attach, Detach, Verify and Makehybrid emit the
    verb, their positional values in order, then the options' tokens in the
    caller's order; Create emits the size specification's tokens between the
    verb and the image, and Convert emits the format's tokens between the
    input image and the output file. *)
Theorem argument_vector_layout :
  (forall image flags,
      attachArgs image flags
      = "attach" :: image :: concat (map attachFlag_encode flags)) /\
  (forall deviceNode flags,
      detachArgs deviceNode flags
      = "detach" :: deviceNode :: concat (map detachFlag_encode flags)) /\
  (forall img flags,
      verifyArgs img flags
      = "verify" :: img :: concat (map verifyFlag_encode flags)) /\
  (forall (F : Type) (enc : F -> list string) image source flags,
      makehybridArgs enc image source flags
      = "makehybrid" :: image :: source :: concat (map enc flags)) /\
  (forall image sizeSpec flags,
      createArgs image sizeSpec flags
      = "create" :: app (sizeFlag_encode sizeSpec)
                        (image :: concat (map createFlag_encode flags))) /\
  (forall (Fm F : Type) (fenc : Fm -> list string) (enc : F -> list string)
          image format outfile flags,
      convertArgs fenc enc image format outfile flags
      = "convert" :: image :: app (fenc format)
                                  (outfile :: concat (map enc flags))).
Proof.
  repeat split; intros;
    unfold attachArgs, detachArgs, verifyArgs, makehybridArgs, createArgs,
      convertArgs;
    rewrite appendFlags_concat; simpl; try reflexivity;
    now rewrite <- !app_assoc.
Qed.

(** C2 (the claim refuted): in Create's vector an option token precedes the
    image name: the token after the verb is the size flag ["-megabytes"],
    and the vector differs from verb, image, then the size's tokens. *)
Lemma Create_size_before_image :
  nth 1 (createArgs "test" (CreateMegabytes 20) []) "" = "-megabytes" /\
  createArgs "test" (CreateMegabytes 20) []
  <> app ["create"; "test"] (sizeFlag_encode (CreateMegabytes 20)).
Proof. split; [reflexivity | vm_compute; discriminate]. Qed.

(** ** Option encodings *)

(** C6: a negatable boolean with flag name [n] encodes [true] as the one
    token ["-n"] and [false] as the one token ["-non"]; never as nothing. *)
Theorem boolNoFlag_tokens (n : string) :
  boolNoFlag true n = ["-" ++ n] /\
  boolNoFlag false n = ["-no" ++ n] /\
  (forall b, boolNoFlag b n <> []).
Proof.
  split; [reflexivity | split; [reflexivity |]].
  intros [|]; discriminate.
Qed.

(** C7: a plain boolean with flag name [n] encodes [false] as no token and
    [true] as the one token ["-n"]. *)
Theorem boolFlag_tokens (n : string) :
  boolFlag false n = [] /\ boolFlag true n = ["-" ++ n].
Proof. split; reflexivity. Qed.

(** C9: the encoding of [AttachSection] does not depend on the two stored
    sector numbers: it is always ["-section"; "01"], the array's indices. *)
Theorem AttachSection_encoding_constant (s1 s2 : AttachSection) :
  attachFlag_encode (AttachSectionF s1) = attachFlag_encode (AttachSectionF s2) /\
  attachFlag_encode (AttachSectionF s1) = ["-section"; "01"].
Proof. split; reflexivity. Qed.

Lemma EncryptionType_String_head (e : EncryptionType) :
  exists c r, EncryptionType_String e = String c r /\ c <> "-"%char.
Proof.
  unfold EncryptionType_String.
  destruct (Z.eqb e AES128); [|destruct (Z.eqb e AES256)];
    do 2 eexists; split; try reflexivity; discriminate.
Qed.

Lemma verifyFlag_no_cache_token (f : verifyFlag) :
  ~ In "-cache" (verifyFlag_encode f) /\ ~ In "-nocache" (verifyFlag_encode f).
Proof.
  destruct f as [[|]|e|[|]|[|]|[|]]; simpl;
    [| | destruct (EncryptionType_String_head e) as (c & r & -> & Hc) | ..];
    split; intros H;
    repeat match goal with
           | H : _ \/ _ |- _ => destruct H as [H|H]
           | H : False |- _ => destruct H
           | H : String _ _ = String _ _ |- _ =>
               first [discriminate H | injection H; intros; subst; auto]
           end.
Qed.

(** C10: Verify's cache option encodes under the flag name ["force"]:
    [VerifyCache] is the one token ["-force"], [VerifyNoCache] is no token,
    and no option passed to Verify produces ["-cache"] or ["-nocache"]. *)
Theorem Verify_cache_flag :
  verifyFlag_encode VerifyCache = ["-force"] /\
  verifyFlag_encode VerifyNoCache = [] /\
  (forall img flags,
      verifyArgs img flags = "verify" :: img :: concat (map verifyFlag_encode flags) /\
      ~ In "-cache" (concat (map verifyFlag_encode flags)) /\
      ~ In "-nocache" (concat (map verifyFlag_encode flags))).
Proof.
  split; [reflexivity | split; [reflexivity |]].
  intros img flags. split.
  - unfold verifyArgs. now rewrite appendFlags_concat.
  - split; intros H; apply in_concat in H as (l & Hl & Ht);
      apply in_map_iff in Hl as (f & <- & _);
      destruct (verifyFlag_no_cache_token f); contradiction.
Qed.

(** ** String lemmas *)

Lemma HasPrefix_app (p x : string) : HasPrefix (p ++ x) p = true.
Proof.
  induction p as [|a p IH]; simpl; [reflexivity|].
  now rewrite Ascii.eqb_refl, IH.
Qed.

Lemma HasPrefix_true (s p : string) :
  HasPrefix s p = true -> s = p ++ sdrop (String.length p) s.
Proof.
  revert s; induction p as [|a p IH]; intros s H; simpl; [reflexivity|].
  destruct s as [|b s]; simpl in H; [discriminate|].
  apply andb_true_iff in H as [Hab Hp].
  apply Ascii.eqb_eq in Hab; subst b.
  now rewrite <- (IH s Hp).
Qed.

Lemma sdrop_app (p x : string) : sdrop (String.length p) (p ++ x) = x.
Proof. induction p; simpl; auto. Qed.

Lemma stake_app (p x : string) : stake (String.length p) (p ++ x) = p.
Proof. induction p; simpl; congruence. Qed.

Lemma sdrop_add (n m : nat) (s : string) : sdrop (n + m) s = sdrop m (sdrop n s).
Proof.
  revert s; induction n as [|n IH]; intros s; simpl; [reflexivity|].
  destruct s; simpl; [now destruct m|apply IH].
Qed.

Lemma sdrop_empty (k : nat) : sdrop k EmptyString = EmptyString.
Proof. now destruct k. Qed.

(** ** [strings.Index] finds the first occurrence *)

Lemma Index_first (sep s : string) (j : nat) :
  HasPrefix (sdrop j s) sep = true ->
  (forall k, (k < j)%nat -> HasPrefix (sdrop k s) sep = false) ->
  Index s sep = Some j.
Proof.
  revert j; induction s as [|c s IH]; intros j Hj Hbefore.
  - rewrite sdrop_empty in Hj. destruct j as [|j].
    + simpl. now rewrite Hj.
    + specialize (Hbefore 0%nat ltac:(lia)). simpl in Hbefore. congruence.
  - destruct j as [|j]; simpl in *.
    + now rewrite Hj.
    + pose proof (Hbefore 0%nat ltac:(lia)) as H0; simpl in H0.
      rewrite H0, (IH j Hj); [reflexivity|].
      intros k Hk. apply (Hbefore (S k)). lia.
Qed.

Lemma Index_none (sep s : string) :
  (forall k, HasPrefix (sdrop k s) sep = false) -> Index s sep = None.
Proof.
  induction s as [|c s IH]; intros H; simpl;
    pose proof (H 0%nat) as H0; simpl in H0; rewrite H0; [reflexivity|].
  - rewrite IH; [reflexivity|].
    intros k. apply (H (S k)).
Qed.

(** ** Device nodes *)

(** C5: [RawDeviceNode] rewrites the first occurrence of ["disk"] into
    ["rdisk"] and keeps everything before and after it; a string without
    ["disk"] is returned unchanged; ["/dev/disk3"] becomes ["/dev/rdisk3"]. *)
Theorem RawDeviceNode_first_disk :
  (forall pre post,
      (forall k, (k < String.length pre)%nat ->
                 HasPrefix (sdrop k (pre ++ "disk" ++ post)) "disk" = false) ->
      RawDeviceNode (pre ++ "disk" ++ post) = pre ++ "rdisk" ++ post) /\
  (forall s, (forall k, HasPrefix (sdrop k s) "disk" = false) ->
             RawDeviceNode s = s) /\
  RawDeviceNode "/dev/disk3" = "/dev/rdisk3".
Proof.
  split; [|split].
  - intros pre post Hbefore. unfold RawDeviceNode, Replace1.
    rewrite (Index_first "disk" _ (String.length pre)).
    + rewrite stake_app, sdrop_add, sdrop_app, sdrop_app. reflexivity.
    + rewrite sdrop_app. apply HasPrefix_app.
    + exact Hbefore.
  - intros s H. unfold RawDeviceNode, Replace1. now rewrite Index_none.
  - reflexivity.
Qed.

Lemma RawDeviceNode_first_disk_witness :
  RawDeviceNode ("/dev/" ++ "disk" ++ "3") = "/dev/" ++ "rdisk" ++ "3" /\
  RawDeviceNode "/dev/sda1" = "/dev/sda1".
Proof.
  split.
  - apply (proj1 RawDeviceNode_first_disk).
    intros k Hk. simpl in Hk.
    do 5 (destruct k as [|k]; [reflexivity|]). lia.
  - apply (proj1 (proj2 RawDeviceNode_first_disk)).
    intros k. do 9 (destruct k as [|k]; [reflexivity|]).
    simpl. rewrite sdrop_empty. reflexivity.
Defined.

(** A match of [/dev/disk[\d]+] starts at the front of [s]. *)
Definition starts_dev (s : string) : Prop :=
  exists c rest, s = devPrefix ++ String c rest /\ is_digit c = true.

(** [r] is the greedy match of [/dev/disk[\d]+] at the front of [s]. *)
Definition dev_match (s r : string) : Prop :=
  exists ds rest,
    s = devPrefix ++ ds ++ rest /\ ds <> EmptyString /\ all_digits ds = true /\
    r = devPrefix ++ ds /\
    (forall c rest', rest = String c rest' -> is_digit c = false).

Lemma digits_prefix_split (s : string) :
  exists rest,
    s = digits_prefix s ++ rest /\ all_digits (digits_prefix s) = true /\
    (forall c r, rest = String c r -> is_digit c = false).
Proof.
  induction s as [|c s (rest & Hs & Hd & Hr)].
  - exists EmptyString. repeat split; discriminate.
  - simpl. destruct (is_digit c) eqn:Hc.
    + exists rest. simpl. rewrite Hc, Hd. split; [now rewrite <- Hs|auto].
    + exists (String c s). split; [reflexivity|split; [reflexivity|]].
      intros c' r H. injection H as <- <-. exact Hc.
Qed.

Lemma attachRe_matchAt_some (s r : string) :
  attachRe_matchAt s = Some r -> dev_match s r.
Proof.
  unfold attachRe_matchAt. destruct (HasPrefix s devPrefix) eqn:Hp; [|discriminate].
  apply HasPrefix_true in Hp.
  destruct (digits_prefix_split (sdrop (String.length devPrefix) s))
    as (rest & Ht & Hd & Hr).
  destruct (digits_prefix (sdrop (String.length devPrefix) s)) as [|a ds] eqn:Hdp;
    [discriminate|].
  intros H. injection H as <-.
  exists (String a ds), rest. repeat split; auto; [|discriminate].
  rewrite Hp at 1. now rewrite Ht.
Qed.

Lemma attachRe_matchAt_none (s : string) :
  attachRe_matchAt s = None -> ~ starts_dev s.
Proof.
  intros H (c & rest & -> & Hc).
  unfold attachRe_matchAt in H.
  rewrite HasPrefix_app, sdrop_app in H. cbn [digits_prefix] in H.
  rewrite Hc in H. discriminate.
Qed.

Lemma attachRe_Find_unfold (s : string) :
  attachRe_Find s =
  match attachRe_matchAt s with
  | Some m => m
  | None => match s with
            | EmptyString => EmptyString
            | String _ s' => attachRe_Find s'
            end
  end.
Proof. destruct s; reflexivity. Qed.

Lemma attachRe_Find_spec (out : string) :
  (attachRe_Find out = EmptyString /\ forall k, ~ starts_dev (sdrop k out)) \/
  (exists k, dev_match (sdrop k out) (attachRe_Find out) /\
             forall j, (j < k)%nat -> ~ starts_dev (sdrop j out)).
Proof.
  induction out as [|c s IH]; rewrite attachRe_Find_unfold.
  - left. split; [reflexivity|].
    intros k. rewrite sdrop_empty. intros (c & rest & H & _). discriminate.
  - destruct (attachRe_matchAt (String c s)) as [m|] eqn:Hm.
    + right. exists 0%nat. split; [now apply attachRe_matchAt_some | lia].
    + apply attachRe_matchAt_none in Hm.
      destruct IH as [[Hf Hk] | (k & Hk & Hj)].
      * left. split; [exact Hf|]. intros [|k]; [exact Hm | apply Hk].
      * right. exists (S k). split; [exact Hk|].
        intros [|j] Hj'; [exact Hm | apply Hj; lia].
Qed.

Definition nl : string := String (ascii_of_nat 10) EmptyString.

Definition attach_sample_output : string :=
  "/dev/disk4" ++ nl ++ "/dev/disk4s1  Apple_HFS  /Volumes/test" ++ nl.

(** C3: when the attach process exits with status 0, [Attach] succeeds with
    the leftmost match of ["/dev/disk"] followed by digits (all the digits
    there), or with [""] (not an error) when the captured output has no such
    match; on the sample output it returns ["/dev/disk4"]. *)
Theorem Attach_device_node_discovery :
  (forall run image flags so se out,
      run (attachArgs image flags) = Exited 0 so se out ->
      exists r, Attach run image flags = Ok r /\
        ((r = EmptyString /\ forall k, ~ starts_dev (sdrop k out)) \/
         (exists k, dev_match (sdrop k out) r /\
                    forall j, (j < k)%nat -> ~ starts_dev (sdrop j out)))) /\
  (forall run image flags so se,
      run (attachArgs image flags) = Exited 0 so se attach_sample_output ->
      Attach run image flags = Ok "/dev/disk4").
Proof.
  split.
  - intros run image flags so se out H.
    exists (attachRe_Find out). unfold Attach, cmdCombinedOutput. rewrite H.
    split; [reflexivity | apply attachRe_Find_spec].
  - intros run image flags so se H.
    unfold Attach, cmdCombinedOutput. rewrite H. reflexivity.
Qed.

Lemma Attach_device_node_discovery_witness :
  Attach (fun _ => Exited 0 "" "" attach_sample_output) "test.sparsebundle"
    [AttachNoVerify; AttachNoAutoFsck; AttachMountPoint "./test"] = Ok "/dev/disk4" /\
  exists r, Attach (fun _ => Exited 0 "" "" "no device here") "test.dmg" [] = Ok r.
Proof.
  split.
  - apply (proj2 Attach_device_node_discovery _ _ _ "" ""). reflexivity.
  - destruct (proj1 Attach_device_node_discovery
                (fun _ => Exited 0 "" "" "no device here") "test.dmg" [] "" ""
                "no device here" eq_refl) as (r & Hr & _).
    exists r. exact Hr.
Defined.

Lemma is_digit_not_sign (c : ascii) :
  is_digit c = true -> Ascii.eqb c "-" = false /\ Ascii.eqb c "+" = false.
Proof.
  intros H. split; apply Ascii.eqb_neq; intros ->; discriminate H.
Qed.

Lemma dec_acc_ge (s : string) (acc : Z) :
  all_digits s = true -> (0 <= acc)%Z -> (acc <= dec_acc acc s)%Z.
Proof.
  revert acc; induction s as [|c s IH]; intros acc Hd Hacc; simpl in *; [lia|].
  apply andb_true_iff in Hd as [Hc Hd].
  unfold is_digit in Hc. apply andb_true_iff in Hc as [H1 H2].
  apply Nat.leb_le in H1, H2.
  assert (0 <= digit_value c <= 9)%Z by (unfold digit_value; lia).
  specialize (IH (acc * 10 + digit_value c)%Z Hd ltac:(lia)). lia.
Qed.

Lemma dec_value_nonneg (s : string) :
  all_digits s = true -> (0 <= dec_value s)%Z.
Proof. intros H. apply (dec_acc_ge s 0 H). lia. Qed.

Lemma Atoi_some (t : string) (n : Z) :
  Atoi t = Some n ->
  exists sg ds,
    t = sg ++ ds /\ (sg = "" \/ sg = "+" \/ sg = "-") /\ ds <> EmptyString /\
    all_digits ds = true /\
    n = (if String.eqb sg "-" then (- dec_value ds)%Z else dec_value ds).
Proof.
  unfold Atoi. destruct t as [|c r]; [discriminate|].
  destruct (Ascii.eqb c "-") eqn:Hm; [|destruct (Ascii.eqb c "+") eqn:Hp].
  - apply Ascii.eqb_eq in Hm; subst c.
    destruct r as [|c' r']; [discriminate|].
    destruct (all_digits (String c' r')) eqn:Hd; [|discriminate].
    destruct (_ && _); [|discriminate]. intros H; injection H as <-.
    exists "-", (String c' r'). repeat split; auto; discriminate.
  - apply Ascii.eqb_eq in Hp; subst c.
    destruct r as [|c' r']; [discriminate|].
    destruct (all_digits (String c' r')) eqn:Hd; [|discriminate].
    destruct (_ && _); [|discriminate]. intros H; injection H as <-.
    exists "+", (String c' r'). repeat split; auto; discriminate.
  - destruct (all_digits (String c r)) eqn:Hd; [|discriminate].
    destruct (_ && _); [|discriminate]. intros H; injection H as <-.
    exists "", (String c r). repeat split; auto; discriminate.
Qed.

(** C4 (the claim refuted): the remainder ["-3"] is not a non-negative
    integer, yet [DeviceNumber("/dev/disk-3")] is [-3], not [0]; and the
    remainder ["99999999999999999999"] is a non-negative integer, yet the
    result is [0], not that number. *)
Lemma DeviceNumber_sign_and_range :
  TrimPrefix "/dev/disk-3" "/dev/disk" = "-3" /\
  DeviceNumber "/dev/disk-3" = (-3)%Z /\
  TrimPrefix "/dev/disk99999999999999999999" "/dev/disk" = "99999999999999999999" /\
  all_digits "99999999999999999999" = true /\
  DeviceNumber "/dev/disk99999999999999999999" = 0%Z.
Proof. repeat split; vm_compute; reflexivity. Qed.

Lemma Atoi_range (t : string) (n : Z) :
  Atoi t = Some n -> (- 2 ^ 63 <= n < 2 ^ 63)%Z.
Proof.
  unfold Atoi.
  destruct (match t with
            | String c r => if Ascii.eqb c "-" then (true, r)
                            else if Ascii.eqb c "+" then (false, r) else (false, t)
            | EmptyString => (false, t)
            end) as [neg body].
  destruct body as [|c r]; [discriminate|].
  destruct (all_digits (String c r)); [|discriminate].
  destruct (_ && _) eqn:E; [|discriminate].
  intros H; injection H as <-.
  apply andb_true_iff in E as [E1 E2]. apply Z.leb_le in E1. apply Z.ltb_lt in E2. lia.
Qed.

Lemma Atoi_complete (sg ds : string) :
  (sg = "" \/ sg = "+" \/ sg = "-") -> ds <> EmptyString -> all_digits ds = true ->
  (- 2 ^ 63 <= (if String.eqb sg "-" then (- dec_value ds)%Z else dec_value ds) < 2 ^ 63)%Z ->
  Atoi (sg ++ ds) = Some (if String.eqb sg "-" then (- dec_value ds)%Z else dec_value ds).
Proof.
  intros Hsg Hne Hd Hr.
  destruct ds as [|c r]; [congruence|].
  pose proof Hd as Hc. simpl in Hc. apply andb_true_iff in Hc as [Hc _].
  destruct (is_digit_not_sign c Hc) as [Hm Hp].
  destruct Hsg as [-> | [-> | ->]]; cbn [String.eqb Ascii.eqb Bool.eqb append] in *; unfold Atoi.
  - rewrite Hm, Hp, Hd.
    replace ((- 2 ^ 63 <=? dec_value (String c r))%Z && (dec_value (String c r) <? 2 ^ 63)%Z)
      with true by (symmetry; apply andb_true_iff; split; [apply Z.leb_le | apply Z.ltb_lt]; lia).
    reflexivity.
  - cbn [Ascii.eqb Bool.eqb]. rewrite Hd.
    replace ((- 2 ^ 63 <=? dec_value (String c r))%Z && (dec_value (String c r) <? 2 ^ 63)%Z)
      with true by (symmetry; apply andb_true_iff; split; [apply Z.leb_le | apply Z.ltb_lt]; lia).
    reflexivity.
  - cbn [Ascii.eqb Bool.eqb]. rewrite Hd.
    replace ((- 2 ^ 63 <=? - dec_value (String c r))%Z && (- dec_value (String c r) <? 2 ^ 63)%Z)
      with true by (symmetry; apply andb_true_iff; split; [apply Z.leb_le | apply Z.ltb_lt]; lia).
    reflexivity.
Qed.

Lemma Atoi_too_large (sg ds : string) :
  (sg = "" \/ sg = "+") -> ds <> EmptyString -> all_digits ds = true ->
  (2 ^ 63 <= dec_value ds)%Z -> Atoi (sg ++ ds) = None.
Proof.
  intros Hsg Hne Hd Hge.
  destruct ds as [|c r]; [congruence|].
  pose proof Hd as Hc. simpl in Hc. apply andb_true_iff in Hc as [Hc _].
  destruct (is_digit_not_sign c Hc) as [Hm Hp].
  destruct Hsg as [-> | ->]; cbn [append]; unfold Atoi.
  - rewrite Hm, Hp, Hd.
    replace ((- 2 ^ 63 <=? dec_value (String c r))%Z && (dec_value (String c r) <? 2 ^ 63)%Z)
      with false by (symmetry; apply andb_false_iff; right; apply Z.ltb_ge; lia).
    reflexivity.
  - cbn [Ascii.eqb Bool.eqb]. rewrite Hd.
    replace ((- 2 ^ 63 <=? dec_value (String c r))%Z && (dec_value (String c r) <? 2 ^ 63)%Z)
      with false by (symmetry; apply andb_false_iff; right; apply Z.ltb_ge; lia).
    reflexivity.
Qed.

(** C4 (as the code does it): [DeviceNumber] strips ["/dev/disk"] when
    present (and leaves the string alone otherwise), then parses the
    remainder with [strconv.Atoi].  A remainder made of an optional ['+'] or
    ['-'] and one or more ASCII digits whose signed value fits in a 64-bit
    [int] gives that signed value; every other remainder gives [0].  So a
    ['-'] sign gives a negative value, and a digit string (bare or after
    ['+']) of value [2^63] or more gives [0].  In particular
    ["/dev/disk12"] gives [12] and ["not-a-device"] gives [0]. *)
Theorem DeviceNumber_Atoi :
  (forall r, TrimPrefix ("/dev/disk" ++ r) "/dev/disk" = r) /\
  (forall s, (forall r, s <> "/dev/disk" ++ r) -> TrimPrefix s "/dev/disk" = s) /\
  (forall s sg ds,
     TrimPrefix s "/dev/disk" = sg ++ ds -> (sg = "" \/ sg = "+" \/ sg = "-") ->
     ds <> EmptyString -> all_digits ds = true ->
     (- 2 ^ 63 <= (if String.eqb sg "-" then (- dec_value ds)%Z else dec_value ds) < 2 ^ 63)%Z ->
     DeviceNumber s = (if String.eqb sg "-" then (- dec_value ds)%Z else dec_value ds)) /\
  (forall s,
     ~ (exists sg ds,
          TrimPrefix s "/dev/disk" = sg ++ ds /\ (sg = "" \/ sg = "+" \/ sg = "-") /\
          ds <> EmptyString /\ all_digits ds = true /\
          (- 2 ^ 63 <= (if String.eqb sg "-" then (- dec_value ds)%Z else dec_value ds)
             < 2 ^ 63)%Z) ->
     DeviceNumber s = 0%Z) /\
  (forall ds, ds <> EmptyString -> all_digits ds = true ->
              (dec_value ds < 2 ^ 63)%Z ->
              DeviceNumber ("/dev/disk" ++ ds) = dec_value ds) /\
  (forall ds, ds <> EmptyString -> all_digits ds = true ->
              (dec_value ds <= 2 ^ 63)%Z ->
              DeviceNumber ("/dev/disk" ++ String "-" ds) = (- dec_value ds)%Z) /\
  (forall ds, ds <> EmptyString -> all_digits ds = true ->
              (2 ^ 63 <= dec_value ds)%Z ->
              DeviceNumber ("/dev/disk" ++ ds) = 0%Z /\
              DeviceNumber ("/dev/disk" ++ String "+" ds) = 0%Z) /\
  (forall s, DeviceNumber s <> 0%Z ->
     exists sg ds,
       TrimPrefix s "/dev/disk" = sg ++ ds /\ (sg = "" \/ sg = "+" \/ sg = "-") /\
       ds <> EmptyString /\ all_digits ds = true /\
       DeviceNumber s = (if String.eqb sg "-" then (- dec_value ds)%Z else dec_value ds)) /\
  DeviceNumber "/dev/disk12" = 12%Z /\
  DeviceNumber "not-a-device" = 0%Z.
Proof.
  assert (Htrim : forall r, TrimPrefix ("/dev/disk" ++ r) "/dev/disk" = r).
  { intros r. unfold TrimPrefix. now rewrite HasPrefix_app, sdrop_app. }
  split; [exact Htrim|]. split; [|split; [|split; [|split; [|split; [|split; [|split]]]]]].
  - intros s Hs. unfold TrimPrefix.
    destruct (HasPrefix s "/dev/disk") eqn:Hp; [|reflexivity].
    exfalso. exact (Hs _ (HasPrefix_true _ _ Hp)).
  - intros s sg ds Ht Hsg Hne Hd Hr. unfold DeviceNumber.
    now rewrite Ht, Atoi_complete.
  - intros s Hno. unfold DeviceNumber.
    destruct (Atoi (TrimPrefix s "/dev/disk")) as [n|] eqn:Ha; [|reflexivity].
    exfalso. apply Hno.
    pose proof (Atoi_range _ _ Ha) as Hr.
    destruct (Atoi_some _ _ Ha) as (sg & ds & Ht & Hsg & Hne & Hd & Hv).
    exists sg, ds. rewrite <- Hv. repeat split; solve [assumption | lia].
  - intros ds Hne Hd Hlt. unfold DeviceNumber. rewrite Htrim.
    pose proof (dec_value_nonneg ds Hd).
    assert (HA := Atoi_complete "" ds (or_introl eq_refl) Hne Hd
                    ltac:(cbn [String.eqb Ascii.eqb Bool.eqb]; lia)).
    cbn [String.eqb Ascii.eqb Bool.eqb append] in HA. now rewrite HA.
  - intros ds Hne Hd Hle. unfold DeviceNumber. rewrite Htrim.
    pose proof (dec_value_nonneg ds Hd).
    assert (HA := Atoi_complete "-" ds (or_intror (or_intror eq_refl)) Hne Hd
                    ltac:(cbn [String.eqb Ascii.eqb Bool.eqb]; lia)).
    cbn [String.eqb Ascii.eqb Bool.eqb append] in HA. now rewrite HA.
  - intros ds Hne Hd Hge. unfold DeviceNumber. rewrite !Htrim. split.
    + assert (HA := Atoi_too_large "" ds (or_introl eq_refl) Hne Hd Hge).
      cbn [append] in HA. now rewrite HA.
    + assert (HA := Atoi_too_large "+" ds (or_intror eq_refl) Hne Hd Hge).
      cbn [append] in HA. now rewrite HA.
  - intros s H.
    destruct (Atoi (TrimPrefix s "/dev/disk")) as [n|] eqn:Ha.
    + assert (Hn : DeviceNumber s = n) by (unfold DeviceNumber; now rewrite Ha).
      destruct (Atoi_some _ _ Ha) as (sg & ds & Ht & Hsg & Hne & Hd & Hv).
      exists sg, ds. rewrite Hn. repeat split; auto.
    + exfalso. apply H. unfold DeviceNumber. now rewrite Ha.
  - split; reflexivity.
Qed.

Lemma DeviceNumber_Atoi_witness :
  TrimPrefix "7" "/dev/disk" = "7" /\
  DeviceNumber "7" = 7%Z /\
  DeviceNumber ("/dev/disk" ++ String "+" "5") = 5%Z /\
  DeviceNumber "/dev/diskX" = 0%Z /\
  DeviceNumber ("/dev/disk" ++ "5") = 5%Z /\
  DeviceNumber ("/dev/disk" ++ String "-" "3") = (-3)%Z /\
  (DeviceNumber ("/dev/disk" ++ "9223372036854775808") = 0%Z /\
   DeviceNumber ("/dev/disk" ++ String "+" "9223372036854775808") = 0%Z) /\
  exists sg ds, TrimPrefix "/dev/disk7" "/dev/disk" = sg ++ ds /\ ds <> EmptyString.
Proof.
  destruct DeviceNumber_Atoi as (_ & Hno & Hok & Hzero & Hu & Hn & Hbig & Hsome & _).
  split; [|split; [|split; [|split; [|split; [|split; [|split]]]]]].
  - apply Hno. intros r H. discriminate H.
  - apply (Hok "7" "" "7"); [reflexivity | left; reflexivity | discriminate | reflexivity |
                            vm_compute; split; congruence].
  - apply (Hok _ "+" "5"); [reflexivity | right; left; reflexivity | discriminate |
                            reflexivity | vm_compute; split; congruence].
  - apply Hzero. intros (sg & ds & Ht & Hsg & Hne & Hd & _).
    vm_compute in Ht. destruct Hsg as [-> | [-> | ->]]; cbn in Ht;
      [subst ds; vm_compute in Hd; discriminate Hd | discriminate Ht | discriminate Ht].
  - apply Hu; [discriminate | reflexivity | vm_compute; reflexivity].
  - apply Hn; [discriminate | reflexivity | vm_compute; discriminate].
  - apply Hbig; [discriminate | reflexivity | vm_compute; discriminate].
  - destruct (Hsome "/dev/disk7" ltac:(vm_compute; discriminate))
      as (sg & ds & Ht & _ & Hne & _).
    exists sg, ds. split; assumption.
Defined.

(** ** Execution errors *)

Definition detach_failure_text : string :=
  "hdiutil: detach failed - No such file or directory".

(** A run of the executable that exits with status 1 and writes a
    diagnostic on its standard error. *)
Definition failing_run (args : list string) : procResult :=
  Exited 1 "" detach_failure_text detach_failure_text.

(** C8 (the divergence): on the same failing run, [Attach] wraps the exit
    error with the captured output, but [Detach] (like every verb that
    uses [cmd.Run()]) returns the bare exit error, whose text is only
    ["exit status 1"]: the process's diagnostic is lost. *)
Theorem Detach_drops_process_text :
  Attach failing_run "test.dmg" [] = Err (Errorf (ExitError 1) detach_failure_text) /\
  Error (Errorf (ExitError 1) detach_failure_text)
    = "exit status 1: " ++ detach_failure_text /\
  Detach failing_run "/dev/disk4" [] = Err (ExitError 1) /\
  Error (ExitError 1) = "exit status 1".
Proof. repeat split; reflexivity. Qed.

(** Success of the verbs run through [cmd.Run()] is exactly a zero exit. *)
Lemma runResult_ok (run : list string -> procResult) (args : list string) :
  runResult run args = Ok tt <->
  exists so se comb, run args = Exited 0 so se comb.
Proof.
  unfold runResult, cmdRun. split.
  - destruct (run args) as [m|c so se comb]; [discriminate|].
    destruct (Z.eqb_spec c 0); [subst; eauto | discriminate].
  - intros (so & se & comb & ->). reflexivity.
Qed.

(** * Further properties of the package *)

(** ** [strconv.Itoa] and [strconv.Atoi] *)

(** Value of a [Decimal.uint], accumulated digit by digit as [dec_acc]. *)
Fixpoint uint_acc (acc : Z) (u : Decimal.uint) : Z :=
  match u with
  | Decimal.Nil => acc
  | Decimal.D0 u => uint_acc (acc * 10 + 0) u
  | Decimal.D1 u => uint_acc (acc * 10 + 1) u
  | Decimal.D2 u => uint_acc (acc * 10 + 2) u
  | Decimal.D3 u => uint_acc (acc * 10 + 3) u
  | Decimal.D4 u => uint_acc (acc * 10 + 4) u
  | Decimal.D5 u => uint_acc (acc * 10 + 5) u
  | Decimal.D6 u => uint_acc (acc * 10 + 6) u
  | Decimal.D7 u => uint_acc (acc * 10 + 7) u
  | Decimal.D8 u => uint_acc (acc * 10 + 8) u
  | Decimal.D9 u => uint_acc (acc * 10 + 9) u
  end.

Lemma dec_acc_string_of_uint (u : Decimal.uint) (acc : Z) :
  dec_acc acc (NilEmpty.string_of_uint u) = uint_acc acc u.
Proof. revert acc; induction u; intros acc; simpl; auto. Qed.

Lemma all_digits_string_of_uint (u : Decimal.uint) :
  all_digits (NilEmpty.string_of_uint u) = true.
Proof. induction u; simpl; auto. Qed.

Lemma string_of_uint_nonempty (u : Decimal.uint) :
  u <> Decimal.Nil -> NilEmpty.string_of_uint u <> EmptyString.
Proof. destruct u; simpl; congruence. Qed.

Lemma uint_acc_pos (u : Decimal.uint) (p : positive) :
  uint_acc (Zpos p) u = Zpos (Pos.of_uint_acc u p).
Proof.
  revert p; induction u; intros p; cbn [uint_acc Pos.of_uint_acc]; auto;
    rewrite <- IHu; f_equal; lia.
Qed.

Lemma uint_acc_zero (u : Decimal.uint) : uint_acc 0 u = Z.of_uint u.
Proof.
  unfold Z.of_uint. induction u; simpl; auto; apply uint_acc_pos.
Qed.

Lemma Atoi_unsigned (ds : string) :
  ds <> EmptyString -> all_digits ds = true -> (dec_value ds < 2 ^ 63)%Z ->
  Atoi ds = Some (dec_value ds).
Proof.
  intros Hne Hd Hlt.
  pose proof (dec_value_nonneg ds Hd).
  destruct ds as [|c r]; [congruence|].
  pose proof Hd as Hc. simpl in Hc. apply andb_true_iff in Hc as [Hc _].
  destruct (is_digit_not_sign c Hc) as [Hm Hp].
  unfold Atoi. rewrite Hm, Hp, Hd.
  replace ((- 2 ^ 63 <=? dec_value (String c r))%Z && (dec_value (String c r) <? 2 ^ 63)%Z)
    with true by (symmetry; apply andb_true_iff; split;
                  [apply Z.leb_le | apply Z.ltb_lt]; lia).
  reflexivity.
Qed.

Lemma Atoi_negative (ds : string) :
  ds <> EmptyString -> all_digits ds = true -> (dec_value ds <= 2 ^ 63)%Z ->
  Atoi (String "-" ds) = Some (- dec_value ds)%Z.
Proof.
  intros Hne Hd Hle.
  pose proof (dec_value_nonneg ds Hd).
  destruct ds as [|c r]; [congruence|].
  unfold Atoi. cbn [Ascii.eqb Bool.eqb]. rewrite Hd.
  replace ((- 2 ^ 63 <=? - dec_value (String c r))%Z && (- dec_value (String c r) <? 2 ^ 63)%Z)
    with true by (symmetry; apply andb_true_iff; split;
                  [apply Z.leb_le | apply Z.ltb_lt]; lia).
  reflexivity.
Qed.

Lemma Atoi_Itoa_int64 (n : Z) :
  (- 2 ^ 63 <= n < 2 ^ 63)%Z -> Atoi (Itoa n) = Some n.
Proof.
  intros Hn. pose proof (DecimalZ.of_to n) as Hof.
  unfold Itoa. destruct n as [|p|p]; [reflexivity| |].
  - change (Z.to_int (Zpos p)) with (Decimal.Pos (Pos.to_uint p)) in *.
    cbn [NilEmpty.string_of_int]. cbn [Z.of_int] in Hof.
    assert (Hv : dec_value (NilEmpty.string_of_uint (Pos.to_uint p)) = Zpos p)
      by (unfold dec_value; now rewrite dec_acc_string_of_uint, uint_acc_zero).
    rewrite <- Hv. apply Atoi_unsigned.
    + apply string_of_uint_nonempty, DecimalPos.Unsigned.to_uint_nonnil.
    + apply all_digits_string_of_uint.
    + lia.
  - change (Z.to_int (Zneg p)) with (Decimal.Neg (Pos.to_uint p)) in *.
    cbn [NilEmpty.string_of_int]. cbn [Z.of_int] in Hof.
    assert (Hv : dec_value (NilEmpty.string_of_uint (Pos.to_uint p)) = Zpos p)
      by (unfold dec_value; rewrite dec_acc_string_of_uint, uint_acc_zero; lia).
    replace (Zneg p) with (- dec_value (NilEmpty.string_of_uint (Pos.to_uint p)))%Z
      by lia.
    apply Atoi_negative.
    + apply string_of_uint_nonempty, DecimalPos.Unsigned.to_uint_nonnil.
    + apply all_digits_string_of_uint.
    + lia.
Qed.

(** The decimal text [strconv.Itoa] writes for an [int] (as [intFlag]
    emits it) is read back to the same [int] by [strconv.Atoi]. *)
Theorem Atoi_Itoa (n : Z) :
  (- 2 ^ 63 <= n < 2 ^ 63)%Z -> Atoi (Itoa n) = Some n.
Proof. exact (Atoi_Itoa_int64 n). Qed.

Lemma Atoi_Itoa_witness : Atoi (Itoa (-42)) = Some (-42)%Z /\ Atoi (Itoa 20) = Some 20%Z.
Proof.
  split; apply Atoi_Itoa; lia.
Defined.

(** A device node written as ["/dev/disk"] followed by [strconv.Itoa] of a
    non-negative [int] gives that number back through [DeviceNumber]. *)
Theorem DeviceNumber_Itoa (n : Z) :
  (0 <= n < 2 ^ 63)%Z -> DeviceNumber ("/dev/disk" ++ Itoa n) = n.
Proof.
  intros Hn. unfold DeviceNumber, TrimPrefix.
  rewrite HasPrefix_app, sdrop_app, Atoi_Itoa_int64 by lia. reflexivity.
Qed.

Lemma DeviceNumber_Itoa_witness : DeviceNumber ("/dev/disk" ++ Itoa 5) = 5%Z.
Proof. apply DeviceNumber_Itoa. lia. Defined.

(** ** Device-node transforms composed *)

Lemma RawDeviceNode_disk (ds : string) :
  RawDeviceNode ("/dev/disk" ++ ds) = "/dev/rdisk" ++ ds.
Proof.
  unfold RawDeviceNode, Replace1.
  rewrite (Index_first "disk" _ 5).
  - reflexivity.
  - reflexivity.
  - intros k Hk. do 5 (destruct k as [|k]; [reflexivity|]). lia.
Qed.

(** Applying [RawDeviceNode] to its own result rewrites the ["disk"] of
    ["rdisk"] again: a raw node is not a fixed point. *)
Theorem RawDeviceNode_twice (ds : string) :
  RawDeviceNode (RawDeviceNode ("/dev/disk" ++ ds)) = "/dev/rrdisk" ++ ds.
Proof.
  rewrite RawDeviceNode_disk. unfold RawDeviceNode, Replace1.
  rewrite (Index_first "disk" _ 6).
  - reflexivity.
  - reflexivity.
  - intros k Hk. do 6 (destruct k as [|k]; [reflexivity|]). lia.
Qed.

(** [DeviceNumber] of a raw device node is the sentinel [0]: the prefix
    ["/dev/disk"] does not match ["/dev/rdisk"], and the whole path is not
    a number. *)
Theorem DeviceNumber_raw_node (ds : string) :
  DeviceNumber ("/dev/rdisk" ++ ds) = 0%Z.
Proof. reflexivity. Qed.

Lemma all_digits_app (a b : string) :
  all_digits (a ++ b) = all_digits a && all_digits b.
Proof.
  induction a as [|c a IH]; simpl; [reflexivity|].
  now rewrite IH, andb_assoc.
Qed.

(** [DeviceNumber] of a slice node such as ["/dev/disk4s1"] is the sentinel
    [0], not the number of the whole disk. *)
Theorem DeviceNumber_slice_node (ds rest : string) :
  all_digits ds = true -> DeviceNumber ("/dev/disk" ++ ds ++ String "s" rest) = 0%Z.
Proof.
  intros Hd. unfold DeviceNumber, TrimPrefix.
  rewrite HasPrefix_app, sdrop_app.
  destruct (Atoi (ds ++ String "s" rest)) as [n|] eqn:Ha; [|reflexivity].
  exfalso.
  destruct (Atoi_some _ _ Ha) as (sg & ds' & Ht & Hsg & _ & Hd' & _).
  destruct Hsg as [-> | [-> | ->]]; simpl in Ht.
  - subst ds'. rewrite all_digits_app, Hd in Hd'. discriminate.
  - destruct ds as [|c r]; simpl in Ht; [discriminate|].
    injection Ht as -> _. discriminate.
  - destruct ds as [|c r]; simpl in Ht; [discriminate|].
    injection Ht as -> _. discriminate.
Qed.

Lemma DeviceNumber_slice_node_witness :
  DeviceNumber ("/dev/disk" ++ "4" ++ String "s" "1") = 0%Z.
Proof. apply DeviceNumber_slice_node. reflexivity. Defined.

Lemma Attach_ok_find (run : list string -> procResult) image flags r :
  Attach run image flags = Ok r ->
  exists out, r = attachRe_Find out.
Proof.
  unfold Attach, cmdCombinedOutput.
  destruct (run (attachArgs image flags)) as [m|c so se comb]; [discriminate|].
  destruct (Z.eqb c 0); [|discriminate].
  intros H; injection H as <-. eauto.
Qed.

(** A non-empty device node returned by a successful [Attach] is
    ["/dev/disk"] followed by digits; [RawDeviceNode] turns it into
    ["/dev/rdisk"] with the same digits, and [DeviceNumber] gives the value
    of the digits when it fits in an [int]. *)
Theorem Attach_node_derivations (run : list string -> procResult) image flags r :
  Attach run image flags = Ok r -> r <> EmptyString ->
  exists ds,
    r = "/dev/disk" ++ ds /\ ds <> EmptyString /\ all_digits ds = true /\
    RawDeviceNode r = "/dev/rdisk" ++ ds /\
    ((dec_value ds < 2 ^ 63)%Z -> DeviceNumber r = dec_value ds).
Proof.
  intros Hok Hne.
  destruct (Attach_ok_find _ _ _ _ Hok) as (out & ->).
  destruct (attachRe_Find_spec out) as [[Hf _] | (k & Hm & _)]; [contradiction|].
  destruct Hm as (ds & rest & _ & Hds & Hd & Hr & _).
  rewrite Hr. unfold devPrefix. exists ds.
  split; [reflexivity|]. split; [exact Hds|]. split; [exact Hd|].
  split; [apply RawDeviceNode_disk|].
  - intros Hlt. unfold DeviceNumber, TrimPrefix.
    rewrite HasPrefix_app, sdrop_app.
    now rewrite Atoi_unsigned.
Qed.

Lemma Attach_node_derivations_witness :
  exists ds,
    "/dev/disk4" = "/dev/disk" ++ ds /\ ds <> EmptyString /\ all_digits ds = true /\
    RawDeviceNode "/dev/disk4" = "/dev/rdisk" ++ ds /\
    ((dec_value ds < 2 ^ 63)%Z -> DeviceNumber "/dev/disk4" = dec_value ds).
Proof.
  apply (Attach_node_derivations (fun _ => Exited 0 "" "" attach_sample_output)
           "test.sparsebundle" []); [reflexivity | discriminate].
Defined.

(** ** Enumerations of create.go *)

Definition createFS_values : list Z :=
  [CreateHFSPlus; CreateHFSPlusJ; CreateJHFSPlus; CreateHFSX; CreateJHFSPlusX;
   CreateAPFS; CreateFAT32; CreateExFAT; CreateUDF].

Definition createType_values : list Z := [CreateUDIF; CreateSPARSE; CreateSPARSEBUNDLE].

Ltac in_cases H := repeat (destruct H as [<- | H]); try solve [destruct H].

(** [createFS.String] gives a distinct non-empty name to each of the nine
    filesystem constants and [""] to every other value; in particular a
    bitwise combination of two different constants (the constants are
    powers of two) encodes as ["-fs"; ""]. *)
Theorem createFS_names :
  (forall c, createFS_String c = "" <-> ~ In c createFS_values) /\
  (forall c1 c2, In c1 createFS_values -> In c2 createFS_values ->
                 createFS_String c1 = createFS_String c2 -> c1 = c2) /\
  (forall c1 c2, In c1 createFS_values -> In c2 createFS_values -> c1 <> c2 ->
                 createFlag_encode (CreateFSF (Z.lor c1 c2)) = ["-fs"; ""]).
Proof.
  assert (Hiff : forall c, createFS_String c = "" <-> ~ In c createFS_values).
  { intros c. split.
    - intros H Hin. in_cases Hin; discriminate H.
    - intros Hn. unfold createFS_String.
      repeat match goal with
             | |- context [Z.eqb c ?k] =>
                 destruct (Z.eqb_spec c k);
                 [subst; exfalso; apply Hn; simpl; tauto|]
             end.
      reflexivity. }
  split; [exact Hiff | split].
  - intros c1 c2 H1 H2. in_cases H1; in_cases H2; try reflexivity;
      vm_compute; discriminate.
  - intros c1 c2 H1 H2 Hne. cbn [createFlag_encode stringFlag].
    rewrite (proj2 (Hiff (Z.lor c1 c2))); [reflexivity|].
    in_cases H1. all: in_cases H2.
    all: try (exfalso; now apply Hne).
    all: clear Hiff Hne; vm_compute; intros Hin;
      repeat destruct Hin as [Hin | Hin]; solve [discriminate Hin | destruct Hin].
Qed.

Lemma createFS_names_witness :
  createFlag_encode (CreateFSF (Z.lor CreateHFSPlus CreateAPFS)) = ["-fs"; ""] /\
  createFS_String CreateAPFS <> "".
Proof.
  split.
  - apply (proj2 (proj2 createFS_names)); simpl; [tauto | tauto | discriminate].
  - intros H. apply (proj1 createFS_names) in H. apply H. simpl. tauto.
Defined.

(** [createType.String] names [UDIF], [SPARSE] and [SPARSEBUNDLE] distinctly
    and gives [""] to every other value, so any other value (such as a
    bitwise combination) is emitted as ["-type"; ""]. *)
Theorem createType_names :
  (forall c, createType_String c = "" <-> ~ In c createType_values) /\
  (forall c1 c2, In c1 createType_values -> In c2 createType_values ->
                 createType_String c1 = createType_String c2 -> c1 = c2) /\
  (forall c, ~ In c createType_values -> createFlag_encode (CreateTypeF c) = ["-type"; ""]).
Proof.
  assert (Hiff : forall c, createType_String c = "" <-> ~ In c createType_values).
  { intros c. split.
    - intros H Hin. in_cases Hin; discriminate H.
    - intros Hn. unfold createType_String.
      repeat match goal with
             | |- context [Z.eqb c ?k] =>
                 destruct (Z.eqb_spec c k);
                 [subst; exfalso; apply Hn; simpl; tauto|]
             end.
      reflexivity. }
  split; [exact Hiff | split].
  - intros c1 c2 H1 H2. in_cases H1; in_cases H2; try reflexivity;
      vm_compute; discriminate.
  - intros c Hn. cbn [createFlag_encode stringFlag]. now rewrite (proj2 (Hiff c) Hn).
Qed.

Lemma createType_names_witness :
  createFlag_encode (CreateTypeF (Z.lor CreateSPARSE CreateSPARSEBUNDLE)) = ["-type"; ""].
Proof.
  apply (proj2 (proj2 createType_names)). vm_compute. intros H.
  repeat destruct H as [H | H]; solve [discriminate H | destruct H].
Defined.

(** Only the last entry visited reaches the argument vector; an empty map
    gives an empty value token; a one-entry map gives its pair. *)
Theorem commonFlag_last_entry (name : string) :
  commonFlag [] name = ["-" ++ name; ""] /\
  (forall m k v, commonFlag (m ++ [(k, v)]) name = ["-" ++ name; k ++ "=" ++ v]) /\
  (forall k v, commonFlag [(k, v)] name = imagekeyFlag k v name).
Proof.
  split; [reflexivity | split; [|reflexivity]].
  intros m k v. unfold commonFlag. now rewrite fold_left_app.
Qed.

(** ** Argument vectors, flattened *)

Lemma appendFlags_app {F : Type} (enc : F -> list string) (args : list string)
    (flags : list F) :
  appendFlags enc args flags = app args (concat (map enc flags)).
Proof.
  unfold appendFlags. revert args.
  induction flags as [|f fs IH]; intros args; simpl.
  - now rewrite app_nil_r.
  - now rewrite IH, app_assoc.
Qed.

(** ** makehybrid options *)

Lemma makehybridOption_tokens (o : makehybridOption) :
  (length (makehybridOption_encode o) <= 1)%nat /\
  Forall (fun t => HasPrefix t "-" = true) (makehybridOption_encode o) /\
  ~ In "-boot-load-size" (makehybridOption_encode o).
Proof.
  destruct o as [b|b|b|b|b|b|b|b|b|b|b|b|b|b|b|b|b|b|b|b|b|b|b|b|b|b|b|b|b|b|b|b|b|b|b|b|b|b|b];
    destruct b; cbn;
    (split; [lia | split; [repeat constructor | intros H; repeat destruct H as [H | H]; solve [discriminate H | destruct H]]]).
Qed.

(** Every option type of detach.go is a toggle: it contributes nothing or
    one token of the form ["-name"], so none of them can hand hdiutil the
    value (volume name, file, platform, ...) such an option stands for; and
    [makehybridBootLoadSize] emits the same token as [makehybridBootLoadSeg],
    so no list of these options ever puts ["-boot-load-size"] on the command
    line. *)
Theorem Makehybrid_options_are_toggles (image source : string)
    (os : list makehybridOption) :
  (forall b, makehybridOption_encode (makehybridBootLoadSize b)
             = makehybridOption_encode (makehybridBootLoadSeg b)) /\
  exists rest,
    makehybridArgs makehybridFlag_encode image source (map MakehybridOption os)
      = "makehybrid" :: image :: source :: rest /\
    (length rest <= length os)%nat /\
    Forall (fun t => HasPrefix t "-" = true) rest /\
    ~ In "-boot-load-size" rest.
Proof.
  split; [reflexivity|].
  exists (concat (map makehybridOption_encode os)).
  unfold makehybridArgs. rewrite appendFlags_app, map_map. split; [reflexivity|].
  cbn [makehybridFlag_encode].
  induction os as [|o os IH]; [repeat split; [cbn; lia | constructor | intros []]|].
  destruct IH as (IHl & IHf & IHn).
  destruct (makehybridOption_tokens o) as (Hl & Hf & Hn).
  cbn [map concat length]. repeat split.
  - rewrite length_app. lia.
  - apply Forall_app. now split.
  - rewrite in_app_iff. tauto.
Qed.

(** A string with an ["="] in it. *)
Fixpoint has_equals (s : string) : bool :=
  match s with
  | EmptyString => false
  | String c s' => Ascii.eqb c "=" || has_equals s'
  end.

Lemma has_equals_app (k v : string) : has_equals (k ++ "=" ++ v) = true.
Proof. induction k as [|c k IH]; simpl in *; [reflexivity | now rewrite IH, orb_true_r]. Qed.

Lemma commonFlag_value (m : list (string * string)) (acc : string) :
  fold_left (fun _ kv => fst kv ++ "=" ++ snd kv) m acc = acc \/
  exists k v, fold_left (fun _ kv => fst kv ++ "=" ++ snd kv) m acc = k ++ "=" ++ v.
Proof.
  revert acc. induction m as [|kv m IH]; intros acc; cbn [fold_left]; [now left|].
  destruct (IH (fst kv ++ "=" ++ snd kv)) as [-> | H]; right;
    [now exists (fst kv), (snd kv) | exact H].
Qed.

Lemma makehybridFlag_boot_load_size (f : makehybridFlag) :
  In "-boot-load-size" (makehybridFlag_encode f) -> f = MakehybridShadow "-boot-load-size".
Proof.
  intros H. destruct f as [o|e|b|m|b|s|b|b|b]; cbn [makehybridFlag_encode] in H.
  - exfalso. exact (proj2 (proj2 (makehybridOption_tokens o)) H).
  - exfalso. destruct H as [H | [H | []]]; [discriminate H|].
    revert H. unfold EncryptionType_String.
    destruct (Z.eqb e AES128); [discriminate|].
    destruct (Z.eqb e AES256); discriminate.
  - destruct b; cbn in H; repeat destruct H as [H | H]; solve [discriminate H | destruct H].
  - exfalso. destruct H as [H | [H | []]]; [discriminate H|].
    destruct (commonFlag_value m "") as [Hm | (k & v & Hm)]; rewrite Hm in H;
      [discriminate H|].
    pose proof (has_equals_app k v) as He. rewrite H in He. discriminate He.
  - destruct b; cbn in H; repeat destruct H as [H | H]; solve [discriminate H | destruct H].
  - destruct H as [H | [H | []]]; [discriminate H | now subst].
  - destruct b; cbn in H; repeat destruct H as [H | H]; solve [discriminate H | destruct H].
  - destruct b; cbn in H; repeat destruct H as [H | H]; solve [discriminate H | destruct H].
  - destruct b; cbn in H; repeat destruct H as [H | H]; solve [discriminate H | destruct H].
Qed.

(** Whatever options are passed to [Makehybrid], the token
    ["-boot-load-size"] reaches the command line only as the image, the
    source, or the value of a [Shadow] option; no option ever emits it as a
    flag. *)
Theorem Makehybrid_no_boot_load_size (image source : string)
    (flags : list makehybridFlag) :
  In "-boot-load-size" (makehybridArgs makehybridFlag_encode image source flags) ->
  image = "-boot-load-size" \/ source = "-boot-load-size" \/
  In (MakehybridShadow "-boot-load-size") flags.
Proof.
  unfold makehybridArgs. rewrite appendFlags_app.
  intros [H | [H | [H | H]]]; [discriminate H | now left | now right; left|].
  right; right. apply in_concat in H. destruct H as (ts & Hts & Hin).
  apply in_map_iff in Hts. destruct Hts as (f & <- & Hf).
  now rewrite <- (makehybridFlag_boot_load_size f Hin).
Qed.

Lemma Makehybrid_no_boot_load_size_witness :
  "out.iso" = "-boot-load-size" \/ "folder" = "-boot-load-size" \/
  In (MakehybridShadow "-boot-load-size")
     [MakehybridOption (makehybridBootLoadSize true); MakehybridShadow "-boot-load-size"].
Proof.
  apply (Makehybrid_no_boot_load_size "out.iso" "folder"
           [MakehybridOption (makehybridBootLoadSize true); MakehybridShadow "-boot-load-size"]).
  cbn. auto 10.
Defined.

(** ** Encryption names *)

Lemma list_ascii_of_string_app (a b : string) :
  list_ascii_of_string (a ++ b) = app (list_ascii_of_string a) (list_ascii_of_string b).
Proof. induction a as [|c a IH]; simpl; [reflexivity | now rewrite IH]. Qed.

Lemma string_app_inv_r (a b t : string) : a ++ t = b ++ t -> a = b.
Proof.
  intros H. apply (f_equal list_ascii_of_string) in H.
  rewrite !list_ascii_of_string_app in H. apply app_inv_tail in H.
  rewrite <- (string_of_list_ascii_of_string a), <- (string_of_list_ascii_of_string b).
  now rewrite H.
Qed.

(** [EncryptionType.String] never gives two [int] values the same text, so
    the value after ["-encryption"] identifies the encryption type passed,
    also outside [AES128] and [AES256]. *)
Theorem EncryptionType_String_injective (e1 e2 : EncryptionType) :
  (- 2 ^ 63 <= e1 < 2 ^ 63)%Z -> (- 2 ^ 63 <= e2 < 2 ^ 63)%Z ->
  EncryptionType_String e1 = EncryptionType_String e2 -> e1 = e2.
Proof.
  intros H1 H2. unfold EncryptionType_String.
  destruct (Z.eqb_spec e1 AES128), (Z.eqb_spec e2 AES128); subst; try reflexivity;
    try discriminate.
  - destruct (Z.eqb e2 AES256); discriminate.
  - destruct (Z.eqb e1 AES256); discriminate.
  - destruct (Z.eqb_spec e1 AES256), (Z.eqb_spec e2 AES256); subst; try reflexivity;
      try discriminate.
    intros H. cbn in H.
    repeat match type of H with String _ _ = String _ _ => injection H as H end.
    apply string_app_inv_r in H.
    pose proof (Atoi_Itoa_int64 e1 H1) as A1. pose proof (Atoi_Itoa_int64 e2 H2) as A2.
    rewrite H, A2 in A1. now injection A1.
Qed.

Lemma EncryptionType_String_injective_witness :
  EncryptionType_String 3%Z = "EncryptionType(3)" /\ (3 = 3)%Z.
Proof.
  split; [reflexivity|].
  apply (EncryptionType_String_injective 3%Z 3%Z); [lia | lia | reflexivity].
Defined.

(** ** The example program *)

(** When hdiutil attaches the image but its output names no [/dev/disk]
    node, [Attach] reports no error and returns [""]; the example program
    then prints [""] and [0] and runs [hdiutil detach ""]. *)
Theorem main_no_device_node (run : list string -> procResult) (so se comb : string) :
  run (attachArgs main_img main_attach_flags) = Exited 0 so se comb ->
  (forall k, ~ starts_dev (sdrop k comb)) ->
  commands (main run) = [attachArgs main_img main_attach_flags; ["detach"; ""]] /\
  printed (main run) = [""; "0"].
Proof.
  intros Hrun Hno.
  assert (Hf : attachRe_Find comb = EmptyString).
  { destruct (attachRe_Find_spec comb) as [[Hf _] | (k & Hk & _)]; [exact Hf|].
    exfalso. apply (Hno k).
    destruct Hk as (ds & rest & Hs & Hds & Hd & _ & _).
    destruct ds as [|c ds']; [contradiction|].
    exists c, (ds' ++ rest). split; [exact Hs|].
    simpl in Hd. now apply andb_prop in Hd as [Hd _]. }
  unfold main, Attach, cmdCombinedOutput. rewrite Hrun. cbn [Z.eqb]. rewrite Hf.
  destruct (Detach run "" []); split; reflexivity.
Qed.

Lemma main_no_device_node_witness :
  commands (main (fun _ => Exited 0 "" "" "")) =
    [attachArgs main_img main_attach_flags; ["detach"; ""]] /\
  printed (main (fun _ => Exited 0 "" "" "")) = [""; "0"].
Proof.
  apply (main_no_device_node (fun _ => Exited 0 "" "" "") "" "" ""); [reflexivity|].
  intros k. rewrite sdrop_empty. intros (c & rest & H & _). discriminate H.
Defined.
